(** * present/markdown.py: elements, Codio sessions, slides and the slide splitter

    A shallow embedding of [src/present/markdown.py].  Python values are
    modelled as follows.

    - [str] is a list of Unicode code points ([N]), so that [len] is the
      list length, as in Python 3.
    - [int] is [Z]; [len] returns [Z.of_nat (length _)].
    - A dict produced by the markdown parser (an AST node) is an [AstNode]
      whose optional fields are the keys the code reads; an absent key is
      [None] and subscripting it raises [KeyError].
    - Exceptions are values of [exn]; code that may raise returns
      [result A].
    - The slide style dict and the colour table are [gmap]s.

    Everything the module imports from elsewhere (terminal size, pyfiglet,
    the file system, yaml, the markdown parser, the effect and colour
    tables, the Python name space outside this module) is a field of
    [World]. *)

From Stdlib Require Import ZArith Lia.
From stdpp Require Import base decidable option list numbers strings gmap.

Local Open Scope Z_scope.

(** ** Python strings *)

Abbreviation char := N (only parsing).
Abbreviation str := (list N) (only parsing).

(** An ASCII literal as a Python string. *)
Definition py (s : string) : str :=
  Ascii.N_of_ascii <$> String.list_ascii_of_string s.

Definition len {A} (l : list A) : Z := Z.of_nat (length l).

Definition SPACE : N := 32%N.
Definition NEWLINE : N := 10%N.
Definition UNDERSCORE : N := 95%N.
(** "•" and "█" *)
Definition BULLET : N := 8226%N.
Definition FULL_BLOCK : N := 9608%N.

(** [s * n]: a negative count gives the empty string. *)
Definition str_mul (s : str) (n : Z) : str := mjoin (replicate (Z.to_nat n) s).

(** [s.ljust(width, fill)] *)
Definition ljust (s : str) (width : Z) (fill : N) : str :=
  if decide (width <= len s) then s
  else s ++ replicate (Z.to_nat (width - len s)) fill.

(** [sep.join(parts)] *)
Fixpoint join (sep : str) (parts : list str) : str :=
  match parts with
  | [] => []
  | [p] => p
  | p :: rest => p ++ sep ++ join sep rest
  end.

(** [s.count(c)] for a one-character needle. *)
Definition count_char (c : N) (s : str) : Z := len (filter (λ x, x = c) s).

(** The line boundaries of [str.splitlines]: LF, VT, FF, CR, FS, GS, RS,
    NEL (U+0085), LS (U+2028) and PS (U+2029); CR LF counts once. *)
Definition is_linebreak (c : N) : bool :=
  bool_decide (c ∈ [10; 11; 12; 13; 28; 29; 30; 133; 8232; 8233]%N).

Fixpoint splitlines_from (cur : str) (s : str) : list str :=
  match s with
  | [] => match cur with [] => [] | _ => [cur] end
  | c :: s' =>
      if is_linebreak c then
        cur :: (if decide (c = 13%N) then
                  match s' with
                  | 10%N :: s'' => splitlines_from [] s''
                  | _ => splitlines_from [] s'
                  end
                else splitlines_from [] s')
      else splitlines_from (cur ++ [c]) s'
  end.

Definition splitlines (s : str) : list str := splitlines_from [] s.

(** [str.title()] and [str.replace("_", "")].  Case mapping is that of
    ASCII letters; other code points are left as they are and count as
    uncased. *)
Definition is_upper (c : N) : bool := bool_decide (65 ≤ c ≤ 90)%N.
Definition is_lower (c : N) : bool := bool_decide (97 ≤ c ≤ 122)%N.
Definition is_cased (c : N) : bool := is_upper c || is_lower c.
Definition to_upper (c : N) : N := if is_lower c then (c - 32)%N else c.
Definition to_lower (c : N) : N := if is_upper c then (c + 32)%N else c.

Fixpoint title_from (previous_is_cased : bool) (s : str) : str :=
  match s with
  | [] => []
  | c :: s' =>
      (if previous_is_cased then to_lower c else to_upper c)
        :: title_from (is_cased c) s'
  end.

Definition title (s : str) : str := title_from false s.

Definition remove_char (c : N) (s : str) : str := filter (λ x, x ≠ c) s.

(** ** Exceptions and results *)

Inductive ValueErrorMsg :=
| NotSupportedElement (slide : Z) (element_name : str)
    (* "(Slide {n}) {name} is not supported" *)
| NotSupportedEffect (effect : str)
    (* "Effect {e} is not supported" *)
| NotSupportedColor (color : str)
    (* "Color {c} is not supported" *)
| EffectsAndColors
    (* "Effects and colors on the same slide are not supported" *)
| EffectsAndCode
    (* "Effects and code on the same slide are not supported" *)
| MaxEmptySequence.
    (* raised by max() on an empty iterable *)

Inductive exn :=
| ValueError (msg : ValueErrorMsg)
| KeyError (key : string)
| IndexError
| TypeError
| NotImplementedError
| FileNotFoundError (path : str)
| ExternalError (what : string).

Inductive result (A : Type) :=
| Ok (a : A)
| Raise (e : exn).
Arguments Ok {A} a.
Arguments Raise {A} e.

#[global] Instance result_ret : MRet result := λ A a, Ok a.
#[global] Instance result_bind : MBind result := λ A B f m,
  match m with
  | Ok a => f a
  | Raise e => Raise e
  end.

#[global] Instance result_fmap : FMap result := λ A B f m,
  match m with
  | Ok a => Ok (f a)
  | Raise e => Raise e
  end.

(** [d[key]] on an optional field. *)
Definition subscript {A} (key : string) (field : option A) : result A :=
  match field with
  | Some a => Ok a
  | None => Raise (KeyError key)
  end.

(** ** AST nodes (the dicts produced by the markdown parser) *)

#[warnings="-register-all"]
Inductive AstNode := mkNode {
  n_type : str;
  n_text : option str;
  n_children : option (list AstNode);
  n_level : option Z;
  n_src : option str;
  n_alt : option str
}.

(** ** BlockCode *)

(** [max(len(l) for l in lines)] *)
Definition max_len (lines : list str) : result Z :=
  match lines with
  | [] => Raise (ValueError MaxEmptySequence)
  | l :: ls => Ok (foldl (λ m x, Z.max m (len x)) (len l) ls)
  end.

(** The rows built by [BlockCode.pad] before they are joined. *)
Definition pad_rows (s : str) (fill : N) : result (list str) :=
  let lines := splitlines s in
  max_len ← max_len lines;
  let top := str_mul [SPACE] (max_len + 2) in
  let bottom := top in
  let lines := (λ l, ljust l (max_len + 1) fill) <$> lines in
  let lines := (λ l, [SPACE] ++ l) <$> lines in
  let lines := top :: lines in
  let lines := lines ++ [bottom] in
  Ok lines.

Definition pad (s : str) (fill : N) : result str :=
  rows ← pad_rows s fill;
  Ok (join [NEWLINE] rows).

Definition BlockCode_size (obj : AstNode) : result Z :=
  text ← subscript "text" (n_text obj);
  Ok (len (splitlines text)).

Definition BlockCode_render (obj : AstNode) : result str :=
  text ← subscript "text" (n_text obj);
  pad text SPACE.

(** ** Codio scripts (the dict loaded from the yaml file)

    A line's keys are optional; [l.get(key, "")] reads an absent key as
    the empty string.  The [speed] entry is not read by any method
    modelled here. *)

Record CodioLine := mkLine {
  l_prompt : option str;
  l_in : option str;
  l_out : option str;
  l_color : option str;
  l_bold : option bool;
  l_underline : option bool;
  l_progress : option bool;
  l_progressChar : option str
}.

Record CodioScript := mkScript {
  s_lines : list CodioLine
}.

(** What a [Codio] element holds in [obj]: the loaded script, or, when the
    class was reached through the name dispatch of [parse], the AST node
    itself. *)
Inductive CodioObj :=
| FromScript (s : CodioScript)
| FromNode (n : AstNode).

(** ** Elements *)

Inductive ElementKind :=
| KHeading | KText | KList | KBlockCode | KCodio | KImage | KBlockHtml.

Inductive Element :=
| Heading (obj : AstNode)
| Text (obj : AstNode)
| List (obj : AstNode)
| BlockCode (obj : AstNode)
| Codio (obj : CodioObj)
| Image (obj : AstNode)
| BlockHtml (obj : AstNode).

(** The [type] field each dataclass sets by default. *)
Definition e_type (e : Element) : str :=
  match e with
  | Heading _ => py "heading"
  | Text _ => py "text"
  | List _ => py "list"
  | BlockCode _ => py "code"
  | Codio _ => py "codio"
  | Image _ => py "image"
  | BlockHtml _ => py "html"
  end.

(** One playback frame, the dict [_c] of [Codio.render].  A progress
    frame has no "color", "bold" and "underline" keys. *)
Record FrameStyle := mkStyle {
  f_color : option str;
  f_bold : option bool;
  f_underline : option bool
}.

Record Frame := mkFrame {
  f_prompt : str;
  f_in : str;
  f_out : str;
  f_style : option FrameStyle
}.

Inductive Rendered :=
| Blob (s : str)
| Frames (code : list Frame).

(** ** Name resolution in [parse]

    [eval(element_name)] looks a name up in the locals of [parse], the
    globals of the module and the builtins. *)
Inductive Resolved :=
| ToElement (k : ElementKind)
    (* one of the seven element classes *)
| ToOther (e : exn)
    (* anything else: evaluating the string and calling the value with
       [obj=...] ends in exception [e] *)
| Unresolved.
    (* NameError *)

(** ** The world outside the module *)

Record World := mkWorld {
  (* shutil.get_terminal_size(): (columns, lines) *)
  terminal_size : Z * Z;
  (* Figlet().renderText *)
  renderText : str → str;
  (* os.path.exists *)
  path_exists : str → bool;
  (* open(path) followed by yaml.load *)
  load_codio : str → result CodioScript;
  (* mistune's markdown(text, renderer="ast") *)
  markdown : str → list AstNode;
  (* present.effects *)
  EFFECTS : list str;
  COLORMAP : gmap str Z;
  (* eval of a string that is none of the names this module binds *)
  eval_elsewhere : str → Resolved;
  (* whether a code point above 127 matches \w *)
  unicode_word : N → bool
}.

(** ** Heading *)

(** [self.obj["children"][0]["text"]] *)
Definition first_child_text (obj : AstNode) : result str :=
  children ← subscript "children" (n_children obj);
  match children with
  | [] => Raise IndexError
  | child :: _ => subscript "text" (n_text child)
  end.

Definition Heading_size (w : World) (obj : AstNode) : result Z :=
  level ← subscript "level" (n_level obj);
  if decide (level = 1) then
    text ← first_child_text obj;
    Ok (len (splitlines (renderText w text)))
  else if decide (level = 2) then Ok 2
  else Ok 1.

Definition Heading_render (w : World) (obj : AstNode) : result str :=
  text ← first_child_text obj;
  level ← subscript "level" (n_level obj);
  if decide (level = 1) then Ok (renderText w text)
  else if decide (level = 2) then
    Ok (join [NEWLINE] [text; str_mul (py "-") (len text)])
  else Ok text.

(** ** Text *)

Definition Text_size (obj : AstNode) : result Z := Ok 1.

Definition Text_render (obj : AstNode) : result str :=
  subscript "text" (n_text obj).

(** ** List *)

(** [List.walk]: the list [text] is shared by all recursive calls and
    appended to in place, so it is threaded through. *)
Fixpoint walk (obj : AstNode) (text : list str) (level : Z) {struct obj}
  : list str :=
  match obj with
  | mkNode _ _ children _ _ _ =>
      match children with
      | None => text
      | Some children =>
          (fix loop (children : list AstNode) (text : list str) : list str :=
             match children with
             | [] => text
             | child :: rest =>
                 let text :=
                   match n_text child with
                   | Some t =>
                       text ++ [str_mul (str_mul [SPACE] 2) level
                                  ++ [BULLET; SPACE] ++ t]
                   | None => text
                   end in
                 let text := walk child text (level + 1) in
                 loop rest text
             end) children text
      end
  end.

Definition List_size (obj : AstNode) : result Z := Ok (len (walk obj [] 0)).

Definition List_render (obj : AstNode) : result str :=
  Ok (join [NEWLINE] (walk obj [] 0)).

(** ** Codio *)

(** [self.obj["lines"]] *)
Definition codio_lines (obj : CodioObj) : result (list CodioLine) :=
  match obj with
  | FromScript s => Ok (s_lines s)
  | FromNode _ => Raise (KeyError "lines")
  end.

(** [l.get("progress") is not None and l["progress"]] *)
Definition progress_set (l : CodioLine) : bool :=
  match l_progress l with
  | Some b => b
  | None => false
  end.

(** Truth value of a string. *)
Definition truthy (s : str) : bool :=
  match s with
  | [] => false
  | _ => true
  end.

(** One iteration of the loop of [Codio.width]. *)
Definition width_step (_terminal_width : Z) (_width : Z) (l : CodioLine) : Z :=
  let prompt := default [] (l_prompt l) in
  let inp := default [] (l_in l) in
  let out := default [] (l_out l) in
  let _magic_width := if progress_set l then _terminal_width else 0 in
  Z.max (Z.max (Z.max (Z.max _width _magic_width) (len prompt))
               (len inp + count_char SPACE inp))
        (len out + count_char SPACE out).

(** [int(columns / 4)]: the quotient truncated towards zero. *)
Definition Codio_width (w : World) (obj : CodioObj) : result Z :=
  let _width := 0 in
  let _terminal_width := Z.quot (fst (terminal_size w)) 4 in
  lines ← codio_lines obj;
  let _width := foldl (width_step _terminal_width) _width lines in
  Ok (_width + 4).

Definition Codio_size (obj : CodioObj) : result Z :=
  all ← codio_lines obj;
  let lines := len all in
  let lines :=
    foldl (λ lines l,
             let inp := default [] (l_in l) in
             let out := default [] (l_out l) in
             if truthy inp && truthy out then lines + 1 else lines)
          lines all in
  Ok (lines + 2).

(** The body of the loop of [Codio.render]; [None] is [continue].
    [int(0.6 * _width)] is taken as the truncated quotient of [6 * _width]
    by [10], which is what the double product truncates to for every
    width a terminal can have. *)
Definition render_line (_width : Z) (line : CodioLine) : option Frame :=
  if progress_set line then
    let progress_char := default [FULL_BLOCK] (l_progressChar line) in
    Some {| f_prompt := [];
            f_in := str_mul progress_char (Z.quot (6 * _width) 10);
            f_out := [];
            f_style := None |}
  else
    let prompt := default [] (l_prompt line) in
    let inp := default [] (l_in line) in
    let out := default [] (l_out line) in
    if negb (truthy prompt || truthy inp || truthy out) then None
    else
      let '(prompt, out) :=
        if truthy prompt && negb (truthy inp) && negb (truthy out)
        then ([], prompt) else (prompt, out) in
      Some {| f_prompt := prompt;
              f_in := inp;
              f_out := out;
              f_style := Some {| f_color := l_color line;
                                 f_bold := l_bold line;
                                 f_underline := l_underline line |} |}.

Definition Codio_render (w : World) (obj : CodioObj) : result (list Frame) :=
  let _code := [] in
  _width ← Codio_width w obj;
  lines ← codio_lines obj;
  Ok (foldl (λ _code line,
               match render_line _width line with
               | Some _c => _code ++ [_c]
               | None => _code
               end) _code lines).

(** ** Image *)

Definition Image_init (w : World) (obj : AstNode) : result Element :=
  src ← subscript "src" (n_src obj);
  if path_exists w src then Ok (Image obj)
  else Raise (FileNotFoundError src).

(** [int(lines / 2)] *)
Definition Image_size (w : World) (obj : AstNode) : result Z :=
  Ok (Z.quot (snd (terminal_size w)) 2).

Definition Image_render (obj : AstNode) : result str :=
  Raise NotImplementedError.

(** ** BlockHtml *)

Definition BlockHtml_size (obj : AstNode) : result Z :=
  Raise NotImplementedError.

Definition BlockHtml_render (obj : AstNode) : result str :=
  Raise NotImplementedError.

(** [\w] *)
Definition is_word (w : World) (c : N) : bool :=
  if decide (c < 128)%N then
    bool_decide (48 ≤ c ≤ 57)%N || is_upper c || is_lower c
      || bool_decide (c = UNDERSCORE)
  else unicode_word w c.

(** The longest prefix of word characters, and what follows it. *)
Fixpoint word_run (w : World) (s : str) : str * str :=
  match s with
  | [] => ([], [])
  | c :: s' =>
      if is_word w c then
        let '(run, rest) := word_run w s' in (c :: run, rest)
      else ([], s)
  end.

(** A match of [(\w+)=(\w+)] anchored at the head of [s]: both runs are
    greedy, and since "=" is no word character only the longest key can be
    followed by it.  Returns key, value and the number of characters
    consumed. *)
Definition match_pair (w : World) (s : str) : option (str * str * nat) :=
  match word_run w s with
  | ([], _) => None
  | (key, c :: rest) =>
      if decide (c = 61%N) then
        match word_run w rest with
        | ([], _) => None
        | (value, _) => Some (key, value, (length key + 1 + length value)%nat)
        end
      else None
  | (_, []) => None
  end.

(** [re.findall]: leftmost matches, scanning resumes after each match.
    [skip] counts the characters of the last match still to be passed. *)
Fixpoint findall_pairs (w : World) (skip : nat) (s : str) : list (str * str) :=
  match s with
  | [] => []
  | _ :: s' =>
      match skip with
      | S k => findall_pairs w k s'
      | O =>
          match match_pair w s with
          | Some (key, value, n) => (key, value) :: findall_pairs w (pred n) s'
          | None => findall_pairs w O s'
          end
      end
  end.

(** The dict comprehension [{s[1]: s[2] for s in _style}]: a later pair
    replaces an earlier one with the same key. *)
Definition BlockHtml_style (w : World) (obj : AstNode) : result (gmap str str) :=
  text ← subscript "text" (n_text obj);
  let _style := findall_pairs w O text in
  Ok (foldl (λ d s, <[s.1 := s.2]> d) ∅ _style).

(** ** The two capabilities of every element *)

Definition size (w : World) (e : Element) : result Z :=
  match e with
  | Heading obj => Heading_size w obj
  | Text obj => Text_size obj
  | List obj => List_size obj
  | BlockCode obj => BlockCode_size obj
  | Codio obj => Codio_size obj
  | Image obj => Image_size w obj
  | BlockHtml obj => BlockHtml_size obj
  end.

Definition render (w : World) (e : Element) : result Rendered :=
  match e with
  | Heading obj => Blob <$> Heading_render w obj
  | Text obj => Blob <$> Text_render obj
  | List obj => Blob <$> List_render obj
  | BlockCode obj => Blob <$> BlockCode_render obj
  | Codio obj => Frames <$> Codio_render w obj
  | Image obj => Blob <$> Image_render obj
  | BlockHtml obj => Blob <$> BlockHtml_render obj
  end.

(** ** Loops that may raise *)

(** [for x in xs: state = body(state, x)], stopping at the first
    exception. *)
Fixpoint for_each {S A} (body : S → A → result S) (xs : list A) (state : S)
  : result S :=
  match xs with
  | [] => Ok state
  | x :: rest => state ← body state x; for_each body rest state
  end.

(** ** Slide *)

Record Slide := mkSlide {
  elements : list Element;
  has_style : bool;
  has_effect : bool;
  has_image : bool;
  has_code : bool;
  has_codio : bool;
  style : gmap str str;
  effect : option str;
  fg_color : Z;
  bg_color : Z
}.

(** The attribute values set before the loop of [Slide.__init__]. *)
Definition Slide_fresh (elements : list Element) : Slide :=
  {| elements := elements;
     has_style := false; has_effect := false; has_image := false;
     has_code := false; has_codio := false;
     style := ∅; effect := None; fg_color := 0; bg_color := 7 |}.

Definition set_style (st : gmap str str) (self : Slide) : Slide :=
  mkSlide (elements self) true (has_effect self) (has_image self)
          (has_code self) (has_codio self) st (effect self)
          (fg_color self) (bg_color self).
Definition set_has_image (self : Slide) : Slide :=
  mkSlide (elements self) (has_style self) (has_effect self) true
          (has_code self) (has_codio self) (style self) (effect self)
          (fg_color self) (bg_color self).
Definition set_has_code (self : Slide) : Slide :=
  mkSlide (elements self) (has_style self) (has_effect self) (has_image self)
          true (has_codio self) (style self) (effect self)
          (fg_color self) (bg_color self).
Definition set_has_codio (self : Slide) : Slide :=
  mkSlide (elements self) (has_style self) (has_effect self) (has_image self)
          (has_code self) true (style self) (effect self)
          (fg_color self) (bg_color self).
Definition set_effect (e : str) (self : Slide) : Slide :=
  mkSlide (elements self) (has_style self) true (has_image self)
          (has_code self) (has_codio self) (style self) (Some e)
          (fg_color self) (bg_color self).
Definition set_fg_color (c : Z) (self : Slide) : Slide :=
  mkSlide (elements self) (has_style self) (has_effect self) (has_image self)
          (has_code self) (has_codio self) (style self) (effect self)
          c (bg_color self).
Definition set_bg_color (c : Z) (self : Slide) : Slide :=
  mkSlide (elements self) (has_style self) (has_effect self) (has_image self)
          (has_code self) (has_codio self) (style self) (effect self)
          (fg_color self) c.

(** [e.style]: only [BlockHtml] has the property, and only [BlockHtml]
    has type "html". *)
Definition e_style (w : World) (e : Element) : result (gmap str str) :=
  match e with
  | BlockHtml obj => BlockHtml_style w obj
  | _ => Raise (ExternalError "AttributeError")
  end.

(** The body of [for e in elements]. *)
Definition Slide_scan (w : World) (self : Slide) (e : Element) : result Slide :=
  self ← (if decide (e_type e = py "html") then
            st ← e_style w e; Ok (set_style st self)
          else Ok self);
  let self := if decide (e_type e = py "image") then set_has_image self
              else self in
  let self := if decide (e_type e = py "code") then set_has_code self
              else self in
  let self := if decide (e_type e = py "codio") then set_has_codio self
              else self in
  Ok self.

(** [Slide.__init__] *)
Definition Slide_init (w : World) (elements : list Element) : result Slide :=
  self ← for_each (Slide_scan w) elements (Slide_fresh elements);
  self ← match style self !! py "effect" with
         | Some e =>
             if decide (e ∈ EFFECTS w) then Ok (set_effect e self)
             else Raise (ValueError (NotSupportedEffect e))
         | None => Ok self
         end;
  self ← match style self !! py "fg" with
         | Some c =>
             match COLORMAP w !! c with
             | Some n => Ok (set_fg_color n self)
             | None => Raise (ValueError (NotSupportedColor c))
             end
         | None => Ok self
         end;
  self ← match style self !! py "bg" with
         | Some c =>
             match COLORMAP w !! c with
             | Some n => Ok (set_bg_color n self)
             | None => Raise (ValueError (NotSupportedColor c))
             end
         | None => Ok self
         end;
  if has_effect self
     && (bool_decide (style self !! py "fg" ≠ None)
         || bool_decide (style self !! py "bg" ≠ None))
  then Raise (ValueError EffectsAndColors)
  else if has_effect self && has_code self
  then Raise (ValueError EffectsAndCode)
  else if has_effect self
  then Ok (set_bg_color 0 (set_fg_color 7 self))
  else Ok self.

(** ** Markdown.parse *)

(** The names bound at module level that a title-cased tag can spell.
    Calling [Slide], [Markdown] or [Figlet] with [obj=...], or calling the
    two tables, raises [TypeError]. *)
Definition module_globals : list (str * Resolved) :=
  [ (py "Heading", ToElement KHeading);
    (py "Text", ToElement KText);
    (py "List", ToElement KList);
    (py "BlockCode", ToElement KBlockCode);
    (py "Codio", ToElement KCodio);
    (py "Image", ToElement KImage);
    (py "BlockHtml", ToElement KBlockHtml);
    (py "Slide", ToOther TypeError);
    (py "Markdown", ToOther TypeError);
    (py "Figlet", ToOther TypeError);
    (py "EFFECTS", ToOther TypeError);
    (py "COLORMAP", ToOther TypeError) ].

Fixpoint lookup_name (name : str) (table : list (str * Resolved))
  : option Resolved :=
  match table with
  | [] => None
  | (n, r) :: rest => if decide (n = name) then Some r else lookup_name name rest
  end.

(** [eval(element_name)] inside [parse].  The local variable [Element] is
    visible once an earlier dispatch has bound it; no other local starts
    with a capital letter. *)
Definition eval_name (w : World) (Element_local : option Resolved) (name : str)
  : Resolved :=
  match (if decide (name = py "Element") then Element_local else None) with
  | Some r => r
  | None =>
      match lookup_name name module_globals with
      | Some r => r
      | None => eval_elsewhere w name
      end
  end.

(** [Element(obj=obj)] for an element class. *)
Definition construct (w : World) (k : ElementKind) (obj : AstNode)
  : result Element :=
  match k with
  | KHeading => Ok (Heading obj)
  | KText => Ok (Text obj)
  | KList => Ok (List obj)
  | KBlockCode => Ok (BlockCode obj)
  | KCodio => Ok (Codio (FromNode obj))
  | KImage => Image_init w obj
  | KBlockHtml => Ok (BlockHtml obj)
  end.

Record ParseState := mkState {
  slides : list Slide;
  sliden : Z;
  buffer : list Element;
  Element_local : option Resolved
}.

(** [obj["type"].title().replace("_", "")] *)
Definition element_name_of (obj : AstNode) : str :=
  remove_char UNDERSCORE (title (n_type obj)).

(** Name dispatch followed by [buffer.append(Element(obj=obj))]; a
    [NameError] becomes the [ValueError] naming the slide under
    construction. *)
Definition dispatch (w : World) (st : ParseState) (obj : AstNode)
  : result ParseState :=
  let element_name := element_name_of obj in
  match eval_name w (Element_local st) element_name with
  | Unresolved =>
      Raise (ValueError (NotSupportedElement (sliden st + 1) element_name))
  | ToOther e => Raise e
  | ToElement k =>
      e ← construct w k obj;
      Ok (mkState (slides st) (sliden st) (buffer st ++ [e])
                  (Some (ToElement k)))
  end.

(** The body of [for child in obj["children"]]. *)
Definition paragraph_child (w : World) (st : ParseState) (child : AstNode)
  : result ParseState :=
  is_codio ← (if decide (n_type child = py "image") then
                alt ← subscript "alt" (n_alt child);
                Ok (bool_decide (alt = py "codio"))
              else Ok false);
  if is_codio : bool then
    src ← subscript "src" (n_src child);
    codio ← load_codio w src;
    Ok (mkState (slides st) (sliden st)
                (buffer st ++ [Codio (FromScript codio)]) (Element_local st))
  else dispatch w st child.

(** [slides.append(Slide(elements=buffer)); sliden += 1] *)
Definition flush (w : World) (st : ParseState) : result ParseState :=
  slide ← Slide_init w (buffer st);
  Ok (mkState (slides st ++ [slide]) (sliden st + 1) (buffer st)
              (Element_local st)).

(** The body of [for i, obj in enumerate(ast)]; [n] is [len(ast)]. *)
Definition parse_step (w : World) (n : Z) (i : Z) (st : ParseState)
  (obj : AstNode) : result ParseState :=
  if decide (n_type obj = py "newline") then Ok st
  else if decide (n_type obj = py "thematic_break" ∧ buffer st ≠ []) then
    st ← flush w st;
    Ok (mkState (slides st) (sliden st) [] (Element_local st))
  else
    st ← (if decide (n_type obj = py "paragraph") then
            children ← subscript "children" (n_children obj);
            for_each (paragraph_child w) children st
          else dispatch w st obj);
    if decide (i = n - 1) then flush w st else Ok st.

Fixpoint parse_loop (w : World) (n : Z) (i : Z) (ast : list AstNode)
  (st : ParseState) : result ParseState :=
  match ast with
  | [] => Ok st
  | obj :: rest =>
      st ← parse_step w n i st obj;
      parse_loop w n (i + 1) rest st
  end.

Definition parse_start : ParseState := mkState [] 0 [] None.

(** [parse] from the AST on. *)
Definition parse_ast (w : World) (ast : list AstNode) : result (list Slide) :=
  st ← parse_loop w (len ast) 0 ast parse_start;
  Ok (slides st).

Definition parse (w : World) (text : str) : result (list Slide) :=
  parse_ast w (markdown w text).

(** ** Sample nodes and a sample world, for concrete runs *)

Definition node (type : string) : AstNode :=
  mkNode (py type) None None None None None.

Definition text_node (t : string) : AstNode :=
  mkNode (py "text") (Some (py t)) None None None None.

Definition heading_node (level : Z) (t : string) : AstNode :=
  mkNode (py "heading") None (Some [text_node t]) (Some level) None None.

Definition code_node (t : str) : AstNode :=
  mkNode (py "block_code") (Some t) None None None None.

Definition html_node (t : string) : AstNode :=
  mkNode (py "block_html") (Some (py t)) None None None None.

Definition image_node (src alt : string) : AstNode :=
  mkNode (py "image") None None None (Some (py src)) (Some (py alt)).

Definition paragraph_node (children : list AstNode) : AstNode :=
  mkNode (py "paragraph") None (Some children) None None None.

Definition newline_node : AstNode := node "newline".
Definition thematic_break_node : AstNode := node "thematic_break".

Definition sample_line : CodioLine :=
  mkLine None None None None None None None None.

Definition sample_script : CodioScript :=
  mkScript
    [ mkLine (Some (py "$")) (Some (py "ls -l a")) (Some (py "a b"))
             (Some (py "green")) (Some true) None None None;
      mkLine (Some (py "Building")) None None None None None None None;
      mkLine None None None None None None (Some true) None;
      sample_line ].

(** An 80x24 terminal, a banner of six rows, one existing file that holds
    [sample_script], two effects and the eight basic colours, and no name
    bound outside the module. *)
Definition sample_world : World :=
  {| terminal_size := (80, 24);
     renderText := λ t, join [NEWLINE] (replicate 6 t) ++ [NEWLINE];
     path_exists := λ p, bool_decide (p = py "demo.yml");
     load_codio := λ p, if decide (p = py "demo.yml") then Ok sample_script
                        else Raise (FileNotFoundError p);
     markdown := λ _, [];
     EFFECTS := [py "fireworks"; py "matrix"];
     COLORMAP := list_to_map [ (py "black", 0); (py "red", 1);
                               (py "green", 2); (py "yellow", 3);
                               (py "blue", 4); (py "magenta", 5);
                               (py "cyan", 6); (py "white", 7) ];
     eval_elsewhere := λ _, Unresolved;
     unicode_word := λ _, false |}.

(** ** The Codio figures as the specification words them *)

(** (a) a quarter of the terminal columns for a progress line, else 0 *)
Definition magic_width (columns : Z) (l : CodioLine) : Z :=
  if progress_set l then Z.quot columns 4 else 0.

(** The candidate width of one line: the largest of (a), the prompt
    length, and the input and output lengths each increased by the number
    of spaces. *)
Definition candidate_width (columns : Z) (l : CodioLine) : Z :=
  let prompt := default [] (l_prompt l) in
  let inp := default [] (l_in l) in
  let out := default [] (l_out l) in
  Z.max (Z.max (Z.max (magic_width columns l) (len prompt))
               (len inp + count_char SPACE inp))
        (len out + count_char SPACE out).

(** The largest of a list of non-negative numbers, 0 for none. *)
Definition maximum (xs : list Z) : Z := foldr Z.max 0 xs.

Definition spec_width (columns : Z) (lines : list CodioLine) : Z :=
  maximum (candidate_width columns <$> lines) + 4.

(** A line with both a non-empty input and a non-empty output. *)
Definition has_input_and_output (l : CodioLine) : bool :=
  truthy (default [] (l_in l)) && truthy (default [] (l_out l)).

Definition spec_size (lines : list CodioLine) : Z :=
  len lines + 2 + len (filter (λ l, has_input_and_output l = true) lines).

(** The frames of a run of lines, each line on its own. *)
Definition frames_of (_width : Z) (lines : list CodioLine) : list Frame :=
  omap (render_line _width) lines.

(** ** The error taxonomy of the specification *)

Inductive ErrorKind :=
| UnsupportedElementKind
| UnsupportedEffect
| UnsupportedColor
| IncompatibleStyle
| MissingAsset.

Definition error_kind (e : exn) : option ErrorKind :=
  match e with
  | ValueError (NotSupportedElement _ _) => Some UnsupportedElementKind
  | ValueError (NotSupportedEffect _) => Some UnsupportedEffect
  | ValueError (NotSupportedColor _) => Some UnsupportedColor
  | ValueError EffectsAndColors => Some IncompatibleStyle
  | ValueError EffectsAndCode => Some IncompatibleStyle
  | FileNotFoundError _ => Some MissingAsset
  | _ => None
  end.

(** A style directive whose effect and colours are all registered. *)
Definition valid_style (w : World) (st : gmap str str) : Prop :=
  (∀ e, st !! py "effect" = Some e → e ∈ EFFECTS w)
  ∧ (∀ c, st !! py "fg" = Some c → is_Some (COLORMAP w !! c))
  ∧ (∀ c, st !! py "bg" = Some c → is_Some (COLORMAP w !! c)).

Definition is_code (e : Element) : bool :=
  match e with
  | BlockCode _ => true
  | _ => false
  end.

(** The style directive of a run of elements: the key/value pairs of its
    last raw-markup element, and no pair if there is none. *)
Definition directive (w : World) (es : list Element) : result (gmap str str) :=
  for_each (λ st e, match e with
                    | BlockHtml obj => BlockHtml_style w obj
                    | _ => Ok st
                    end) es ∅.

(** ** Fragments as the markdown parser delivers them

    A heading carries a level and a first child with text, a text node its
    text, a code block and raw markup their text, an image its source
    path, and a Codio element the script loaded from its file. *)
Definition well_formed (e : Element) : Prop :=
  match e with
  | Heading obj =>
      is_Some (n_level obj)
      ∧ ∃ child rest, n_children obj = Some (child :: rest)
                      ∧ is_Some (n_text child)
  | Text obj => is_Some (n_text obj)
  | List obj => True
  | BlockCode obj => is_Some (n_text obj)
  | Codio obj => ∃ script, obj = FromScript script
  | Image obj => is_Some (n_src obj)
  | BlockHtml obj => is_Some (n_text obj)
  end.

(** [e.render()] followed by [e.size].  No method assigns to [self] or
    changes [self.obj] ([walk] fills a list of its own), so [size] reads
    the fragment the element was built from; an exception of [render] is
    taken as caught by the caller. *)
Definition size_after_render (w : World) (e : Element) : result Z :=
  let _ := render w e in
  size w e.

(** ** Tags and names *)

(** The tags the specification lists as supported or ignored. *)
Definition supported_tags : list str :=
  [ py "heading"; py "text"; py "list"; py "block_code"; py "image";
    py "block_html"; py "paragraph"; py "thematic_break"; py "newline" ].

(** A name that nothing binds: neither the module, nor the local
    [Element], nor anything outside. *)
Definition unbound (w : World) (name : str) : Prop :=
  name ≠ py "Element"
  ∧ lookup_name name module_globals = None
  ∧ eval_elsewhere w name = Unresolved.


(** * Properties *)

(** ** Strings *)

Lemma len_nonneg {A} (l : list A) : 0 <= len l.
Proof. unfold len. lia. Qed.

Lemma len_app {A} (l k : list A) : len (l ++ k) = len l + len k.
Proof. unfold len. rewrite length_app. lia. Qed.

Lemma len_replicate {A} (n : nat) (x : A) : len (replicate n x) = Z.of_nat n.
Proof. unfold len. now rewrite length_replicate. Qed.

Lemma str_mul_char (c : N) (n : Z) : str_mul [c] n = replicate (Z.to_nat n) c.
Proof.
  unfold str_mul. induction (Z.to_nat n) as [|k IH]; simpl; [done|].
  now rewrite IH.
Qed.

Lemma ljust_short (s : str) (width : Z) (fill : N) :
  len s < width →
  ljust s width fill = s ++ replicate (Z.to_nat (width - len s)) fill.
Proof. intros H. unfold ljust. case_decide; [lia|done]. Qed.

(** No character of [s] is a line boundary. *)
Definition one_line (s : str) : Prop := Forall (λ c, is_linebreak c = false) s.

Lemma splitlines_from_one_line (n : nat) :
  ∀ s cur, (length s ≤ n)%nat → one_line cur →
           Forall one_line (splitlines_from cur s).
Proof.
  induction n as [|n IH]; intros s cur Hn Hcur.
  - destruct s; [|simpl in Hn; lia].
    simpl. destruct cur; repeat constructor; by inversion Hcur.
  - destruct s as [|c s].
    + simpl. destruct cur; repeat constructor; by inversion Hcur.
    + simpl in Hn. simpl. destruct (is_linebreak c) eqn:Hc.
      * constructor; [done|].
        case_decide.
        -- destruct s as [|d s']; [apply IH; [simpl; lia|constructor]|].
           destruct d as [|p]; [apply IH; [simpl in *; lia|constructor]|].
           repeat (destruct p as [p|p|];
                   try (apply IH; [simpl in *; lia|constructor])).
        -- apply IH; [lia|constructor].
      * apply IH; [lia|]. apply Forall_app. split; [done|].
        by repeat constructor.
Qed.

Lemma splitlines_one_line (s : str) : Forall one_line (splitlines s).
Proof. apply (splitlines_from_one_line (length s)); [lia|constructor]. Qed.

Lemma splitlines_from_run (r : str) :
  one_line r → ∀ cur s,
  splitlines_from cur (r ++ s) = splitlines_from (cur ++ r) s.
Proof.
  induction 1 as [|c r Hc _ IH]; intros cur s; simpl.
  - by rewrite app_nil_r.
  - rewrite Hc, IH. by rewrite <- app_assoc.
Qed.

(** Reading back the lines of a text whose rows are non-empty and free of
    line boundaries gives the rows. *)
Lemma splitlines_join (rows : list str) :
  Forall (λ r, one_line r ∧ r ≠ []) rows →
  splitlines (join [NEWLINE] rows) = rows.
Proof.
  unfold splitlines. induction 1 as [|r rows [Hr Hne] Hrows IH]; [done|].
  destruct rows as [|r' rows].
  - simpl. rewrite <- (app_nil_r r) at 1.
    rewrite (splitlines_from_run r Hr [] []). simpl.
    destruct r; [done|done].
  - change (join [NEWLINE] (r :: r' :: rows))
      with (r ++ [NEWLINE] ++ join [NEWLINE] (r' :: rows)).
    rewrite (splitlines_from_run r Hr). simpl app at 1.
    change ([NEWLINE] ++ ?x) with (NEWLINE :: x).
    cbn [splitlines_from].
    change (is_linebreak NEWLINE) with true. cbn iota.
    destruct (decide (NEWLINE = 13%N)) as [E|_]; [discriminate E|].
    by rewrite IH.
Qed.

(** ** BlockCode *)

Lemma foldl_max_len_bounds (ls : list str) :
  ∀ m, let L := foldl (λ m x, Z.max m (len x)) m ls in
       m <= L ∧ Forall (λ l, len l <= L) ls
       ∧ (L = m ∨ Exists (λ l, len l = L) ls).
Proof.
  induction ls as [|l ls IH]; intros m; simpl.
  - repeat split; [lia|constructor|by left].
  - destruct (IH (Z.max m (len l))) as (Hm & Hall & Hex).
    repeat split.
    + lia.
    + constructor; [lia|done].
    + destruct Hex as [E|Hex]; [|right; by constructor 2].
      destruct (Z.max_spec m (len l)) as [[? E']|[? E']].
      * right. constructor 1. lia.
      * left. lia.
Qed.

(** [max_len] returns the length of a longest line. *)
Lemma max_len_spec (lines : list str) (L : Z) :
  max_len lines = Ok L ↔
  lines ≠ [] ∧ Forall (λ l, len l <= L) lines ∧ Exists (λ l, len l = L) lines.
Proof.
  destruct lines as [|l ls]; simpl.
  - split; [discriminate|]. by intros [? _].
  - pose proof (foldl_max_len_bounds ls (len l)) as (Hm & Hall & Hex).
    simpl in *. set (M := foldl _ _ _) in *.
    assert (HM : Forall (λ l, len l <= M) (l :: ls)
                 ∧ Exists (λ l, len l = M) (l :: ls)).
    { split; [by constructor|].
      destruct Hex as [E|Hex]; [by constructor 1|by constructor 2]. }
    destruct HM as [HMall HMex].
    split.
    + intros [= <-]. done.
    + intros (_ & HL & HLex). f_equal.
      apply Exists_exists in HLex as (x & Hx & Ex).
      apply Exists_exists in HMex as (y & Hy & Ey).
      rewrite Forall_forall in HL, HMall.
      specialize (HL y Hy). specialize (HMall x Hx). simpl in *. lia.
Qed.

Lemma splitlines_from_nil (s : str) :
  ∀ cur, splitlines_from cur s = [] → cur = [] ∧ s = [].
Proof.
  induction s as [|c s IH]; intros cur; simpl.
  - destruct cur; [done|discriminate].
  - destruct (is_linebreak c); [discriminate|].
    intros H. apply IH in H as [H _]. by destruct cur.
Qed.

Lemma splitlines_nil (s : str) : splitlines s = [] ↔ s = [].
Proof.
  split; [|by intros ->].
  intros H. by apply splitlines_from_nil in H as [_ ?].
Qed.

Lemma pad_rows_ok (s : str) (fill : N) (L : Z) :
  max_len (splitlines s) = Ok L →
  pad_rows s fill
  = Ok ([replicate (Z.to_nat (L + 2)) SPACE]
          ++ ((λ l, [SPACE] ++ l ++ replicate (Z.to_nat (L + 1 - len l)) fill)
                <$> splitlines s)
          ++ [replicate (Z.to_nat (L + 2)) SPACE]).
Proof.
  intros HL. unfold pad_rows. rewrite HL. simpl. f_equal.
  rewrite str_mul_char. f_equal. f_equal.
  apply max_len_spec in HL as (_ & Hall & _).
  rewrite <- list_fmap_compose.
  apply Forall_fmap_ext_1. eapply Forall_impl; [exact Hall|].
  intros l Hl. simpl in Hl. simpl. rewrite ljust_short by lia. done.
Qed.

(** C7: a code block of N >= 1 source lines whose longest line has length
    L has size N, and renders to N + 2 rows of width L + 2: a border row
    of spaces, each source line behind one space and filled up with spaces,
    and the border row again.  The rendered text read back line by line
    gives exactly these rows. *)
Theorem BlockCode_size_excludes_border (obj : AstNode) (text : str) (N L : Z) :
  n_text obj = Some text →
  N = len (splitlines text) →
  1 <= N →
  Forall (λ l, len l <= L) (splitlines text) →
  Exists (λ l, len l = L) (splitlines text) →
  let border := replicate (Z.to_nat (L + 2)) SPACE in
  let content :=
    (λ l, [SPACE] ++ l ++ replicate (Z.to_nat (L + 1 - len l)) SPACE)
      <$> splitlines text in
  let rows := [border] ++ content ++ [border] in
  BlockCode_size obj = Ok N
  ∧ BlockCode_render obj = Ok (join [NEWLINE] rows)
  ∧ splitlines (join [NEWLINE] rows) = rows
  ∧ len rows = N + 2
  ∧ Forall (λ r, len r = L + 2) rows.
Proof.
  intros Htext -> HN Hall Hex border content rows.
  assert (Hne : splitlines text ≠ []).
  { intros E. rewrite E in HN. unfold len in HN. simpl in HN. lia. }
  assert (HL : max_len (splitlines text) = Ok L) by by apply max_len_spec.
  assert (H0 : 0 <= L).
  { apply Exists_exists in Hex as (l & _ & <-). apply len_nonneg. }
  assert (Hborder : len border = L + 2).
  { unfold border. rewrite len_replicate. lia. }
  assert (Hwidth : Forall (λ r, len r = L + 2) rows).
  { unfold rows. repeat (apply Forall_app; split).
    - by repeat constructor.
    - unfold content. apply Forall_fmap. eapply Forall_impl; [exact Hall|].
      intros l Hl. cbv beta in Hl. unfold compose.
      rewrite !len_app, len_replicate. change (len [SPACE]) with 1. lia.
    - by repeat constructor. }
  assert (Hlines : Forall (λ r, one_line r ∧ r ≠ []) rows).
  { assert (Hsp : ∀ n, one_line (replicate n SPACE)).
    { intros n. apply Forall_replicate. reflexivity. }
    assert (Hnil : ∀ r : str, len r = L + 2 → r ≠ []).
    { intros r Hr ->. unfold len in Hr. simpl in Hr. lia. }
    rewrite Forall_forall in Hwidth.
    apply Forall_forall. intros r Hr. split; [|by apply Hnil, Hwidth].
    unfold rows in Hr. rewrite !elem_of_app, !list_elem_of_singleton in Hr.
    destruct Hr as [->|[Hr| ->]]; [apply Hsp| |apply Hsp].
    unfold content in Hr. apply list_elem_of_fmap in Hr as (l & -> & Hl).
    pose proof (splitlines_one_line text) as Hone.
    rewrite Forall_forall in Hone.
    apply Forall_app. split; [by repeat constructor|].
    apply Forall_app. split; [by apply Hone|apply Hsp]. }
  repeat split.
  - unfold BlockCode_size. by rewrite Htext.
  - unfold BlockCode_render, pad. rewrite Htext. simpl.
    by rewrite (pad_rows_ok text SPACE L HL).
  - by apply splitlines_join.
  - unfold rows. rewrite !len_app. unfold content, len.
    rewrite length_fmap. simpl. lia.
  - exact Hwidth.
Qed.

(** A two-line block: rows of width 4 around "ab" and "c". *)
Lemma BlockCode_size_excludes_border_witness :
  BlockCode_size (code_node (py "ab" ++ [NEWLINE] ++ py "c")) = Ok 2
  ∧ BlockCode_render (code_node (py "ab" ++ [NEWLINE] ++ py "c"))
    = Ok (py "    " ++ [NEWLINE] ++ py " ab " ++ [NEWLINE] ++ py " c  "
            ++ [NEWLINE] ++ py "    ").
Proof.
  destruct (BlockCode_size_excludes_border
              (code_node (py "ab" ++ [NEWLINE] ++ py "c"))
              (py "ab" ++ [NEWLINE] ++ py "c") 2 2)
    as (Hsize & Hrender & _).
  - reflexivity.
  - reflexivity.
  - lia.
  - vm_compute. repeat constructor; discriminate.
  - vm_compute. constructor 1. reflexivity.
  - split; [exact Hsize|exact Hrender].
Defined.

(** C10: on an empty code text [render] raises, because [max] is taken
    over no lines, while [size] is 0; [render] returns exactly when the
    text has at least one line, and only the empty text has none. *)
Theorem BlockCode_render_needs_a_line (obj : AstNode) (text : str) :
  n_text obj = Some text →
  (text = [] →
   BlockCode_render obj = Raise (ValueError MaxEmptySequence)
   ∧ BlockCode_size obj = Ok 0)
  ∧ ((∃ r, BlockCode_render obj = Ok r) ↔ 1 <= len (splitlines text))
  ∧ (len (splitlines text) = 0 ↔ text = []).
Proof.
  intros Htext. unfold BlockCode_render, BlockCode_size, pad, pad_rows.
  rewrite Htext. simpl. repeat split.
  - by subst.
  - by subst.
  - intros [r Hr]. destruct (splitlines text); [discriminate|].
    unfold len. simpl. lia.
  - intros H. destruct (splitlines text) as [|l ls] eqn:E.
    + unfold len in H. simpl in H. lia.
    + simpl. eauto.
  - intros H. apply splitlines_nil. destruct (splitlines text); [done|].
    unfold len in H. simpl in H. lia.
  - by intros ->.
Qed.

Lemma BlockCode_render_needs_a_line_witness :
  BlockCode_render (code_node []) = Raise (ValueError MaxEmptySequence)
  ∧ BlockCode_size (code_node []) = Ok 0.
Proof.
  apply (BlockCode_render_needs_a_line (code_node []) []); reflexivity.
Defined.

(** ** Codio *)

Lemma maximum_nonneg (xs : list Z) : 0 <= maximum xs.
Proof. induction xs as [|x xs IH]; simpl; lia. Qed.

Lemma width_step_candidate (columns _width : Z) (l : CodioLine) :
  width_step (Z.quot columns 4) _width l
  = Z.max _width (candidate_width columns l).
Proof.
  unfold width_step, candidate_width, magic_width.
  destruct (progress_set l); lia.
Qed.

Lemma width_loop (columns : Z) (lines : list CodioLine) :
  ∀ _width, 0 <= _width →
  foldl (width_step (Z.quot columns 4)) _width lines
  = Z.max _width (maximum (candidate_width columns <$> lines)).
Proof.
  induction lines as [|l lines IH]; intros _width H0; simpl.
  - lia.
  - rewrite IH by (rewrite width_step_candidate; lia).
    rewrite width_step_candidate. symmetry. apply Z.max_assoc.
Qed.

Lemma Codio_width_spec (w : World) (script : CodioScript) :
  Codio_width w (FromScript script)
  = Ok (spec_width (terminal_size w).1 (s_lines script)).
Proof.
  unfold Codio_width, spec_width. simpl. f_equal.
  rewrite width_loop by lia.
  pose proof (maximum_nonneg
                (candidate_width (terminal_size w).1 <$> s_lines script)).
  lia.
Qed.

(** C4: the session width is the largest candidate width of its lines
    plus 4; on an 80-column terminal a progress line contributes 20, so a
    session of that single line is max(20, other candidates) + 4 wide. *)
Theorem Codio_width_is_max_candidate_plus_4 (w : World) (script : CodioScript) :
  Codio_width w (FromScript script)
  = Ok (spec_width (terminal_size w).1 (s_lines script))
  ∧ (∀ l, progress_set l = true → magic_width 80 l = 20)
  ∧ (∀ l, (terminal_size w).1 = 80 → progress_set l = true →
          Codio_width w (FromScript (mkScript [l]))
          = Ok (Z.max (Z.max (Z.max 20 (len (default [] (l_prompt l))))
                              (len (default [] (l_in l))
                               + count_char SPACE (default [] (l_in l))))
                       (len (default [] (l_out l))
                        + count_char SPACE (default [] (l_out l)))
                + 4)).
Proof.
  split; [apply Codio_width_spec|]. split.
  - intros l Hl. unfold magic_width. by rewrite Hl.
  - intros l Hcols Hl. rewrite Codio_width_spec. simpl. f_equal.
    unfold spec_width, candidate_width, magic_width. simpl.
    rewrite Hcols, Hl. change (Z.quot 80 4) with 20.
    pose proof (len_nonneg (default [] (l_prompt l))). lia.
Qed.

(** The progress line of the sample script on the 80-column terminal. *)
Lemma Codio_width_is_max_candidate_plus_4_witness :
  magic_width 80 (mkLine None None None None None None (Some true) None) = 20
  ∧ Codio_width sample_world
      (FromScript
         (mkScript [mkLine None None None None None None (Some true) None]))
    = Ok 24.
Proof.
  destruct (Codio_width_is_max_candidate_plus_4 sample_world sample_script)
    as (_ & Hmagic & Hone).
  split.
  - apply Hmagic. reflexivity.
  - rewrite Hone; reflexivity.
Defined.

Lemma size_loop (all : list CodioLine) :
  ∀ lines,
  foldl (λ lines l,
           let inp := default [] (l_in l) in
           let out := default [] (l_out l) in
           if truthy inp && truthy out then lines + 1 else lines) lines all
  = lines + len (filter (λ l, has_input_and_output l = true) all).
Proof.
  induction all as [|l all IH]; intros lines; simpl.
  - unfold len. simpl. lia.
  - rewrite IH. unfold filter at 2. simpl. fold (has_input_and_output l).
    destruct (has_input_and_output l) eqn:E.
    + rewrite decide_True by done. unfold len. simpl.
      unfold filter. lia.
    + rewrite decide_False by done. unfold len, filter. lia.
Qed.

Lemma Codio_size_spec (script : CodioScript) :
  Codio_size (FromScript script) = Ok (spec_size (s_lines script)).
Proof.
  unfold Codio_size, spec_size. simpl. f_equal. rewrite size_loop. lia.
Qed.

(** C5: the size of a Codio element is the number of lines plus 2, plus
    one for every line with both a non-empty input and a non-empty
    output; so one more line adds 1 to the size, and 2 when it has both. *)
Theorem Codio_size_counts_input_output_lines (script : CodioScript) :
  Codio_size (FromScript script)
  = Ok (len (s_lines script) + 2
        + len (filter (λ l, has_input_and_output l = true) (s_lines script)))
  ∧ ∀ l n,
      Codio_size (FromScript script) = Ok n →
      Codio_size (FromScript (mkScript (s_lines script ++ [l])))
      = Ok (n + 1 + (if has_input_and_output l then 1 else 0)).
Proof.
  assert (Hsize : ∀ lines, Codio_size (FromScript (mkScript lines))
                           = Ok (len lines + 2
                                 + len (filter (λ l, has_input_and_output l = true)
                                               lines))).
  { intros lines. unfold Codio_size. simpl. f_equal.
    rewrite size_loop. lia. }
  destruct script as [lines]. simpl. split; [apply Hsize|].
  intros l n Hn. rewrite Hsize in Hn. injection Hn as <-.
  rewrite Hsize. f_equal. rewrite filter_app, !len_app.
  unfold filter at 2. simpl.
  destruct (has_input_and_output l).
  - rewrite decide_True by done. unfold len. simpl. lia.
  - rewrite decide_False by done. unfold len. simpl. lia.
Qed.

(** The first line of the sample script has both an input and an output:
    appended to the script it adds 2 to the size. *)
Lemma Codio_size_counts_input_output_lines_witness :
  Codio_size (FromScript sample_script) = Ok 7
  ∧ Codio_size
      (FromScript
         (mkScript (s_lines sample_script
                      ++ [mkLine (Some (py "$")) (Some (py "ls -l a"))
                                 (Some (py "a b")) (Some (py "green"))
                                 (Some true) None None None])))
    = Ok 9.
Proof.
  split; [reflexivity|].
  apply (proj2 (Codio_size_counts_input_output_lines sample_script)
               (mkLine (Some (py "$")) (Some (py "ls -l a"))
                       (Some (py "a b")) (Some (py "green"))
                       (Some true) None None None) 7).
  reflexivity.
Defined.

Lemma render_loop (_width : Z) (lines : list CodioLine) :
  ∀ _code,
  foldl (λ _code line,
           match render_line _width line with
           | Some _c => _code ++ [_c]
           | None => _code
           end) _code lines
  = _code ++ frames_of _width lines.
Proof.
  unfold frames_of.
  induction lines as [|l lines IH]; intros _code; simpl.
  - by rewrite app_nil_r.
  - rewrite IH. destruct (render_line _width l); [|done].
    by rewrite <- app_assoc.
Qed.

Lemma Codio_render_frames (w : World) (script : CodioScript) :
  Codio_render w (FromScript script)
  = Ok (frames_of (spec_width (terminal_size w).1 (s_lines script))
                  (s_lines script)).
Proof.
  unfold Codio_render.
  rewrite Codio_width_spec. simpl. by rewrite render_loop.
Qed.

(** C6: a line without the progress flag that has a prompt and neither
    input nor output yields exactly one frame, at its place among the
    frames of the other lines; the frame's output is the prompt text and
    its prompt is empty. *)
Theorem Codio_render_prompt_only (w : World) (script : CodioScript)
  (before after : list CodioLine) (l : CodioLine) (prompt : str) :
  s_lines script = before ++ l :: after →
  progress_set l = false →
  l_prompt l = Some prompt →
  prompt ≠ [] →
  default [] (l_in l) = [] →
  default [] (l_out l) = [] →
  let _width := spec_width (terminal_size w).1 (s_lines script) in
  let frame := {| f_prompt := []; f_in := []; f_out := prompt;
                  f_style := Some {| f_color := l_color l;
                                     f_bold := l_bold l;
                                     f_underline := l_underline l |} |} in
  render_line _width l = Some frame
  ∧ Codio_render w (FromScript script)
    = Ok (frames_of _width before ++ [frame] ++ frames_of _width after).
Proof.
  intros Hlines Hprogress Hprompt Hne Hin Hout _width frame.
  assert (Hline : ∀ n, render_line n l = Some frame).
  { intros n. unfold render_line.
    rewrite Hprogress, Hprompt, Hin, Hout. simpl.
    destruct prompt; [done|]. done. }
  split; [apply Hline|].
  rewrite Codio_render_frames. fold _width. f_equal.
  rewrite Hlines. unfold frames_of. rewrite omap_app. simpl.
  by rewrite Hline.
Qed.

(** The "Building" line of the sample script. *)
Lemma Codio_render_prompt_only_witness :
  Codio_render sample_world (FromScript sample_script)
  = Ok (frames_of 24 (take 1 (s_lines sample_script))
          ++ [ {| f_prompt := []; f_in := []; f_out := py "Building";
                  f_style := Some (mkStyle None None None) |} ]
          ++ frames_of 24 (drop 2 (s_lines sample_script))).
Proof.
  apply (Codio_render_prompt_only sample_world sample_script
           (take 1 (s_lines sample_script)) (drop 2 (s_lines sample_script))
           (mkLine (Some (py "Building")) None None None None None None None)
           (py "Building")).
  - reflexivity.
  - reflexivity.
  - reflexivity.
  - discriminate.
  - reflexivity.
  - reflexivity.
Defined.

(** ** Slide *)

(** What the element loop of [Slide.__init__] leaves untouched, and what
    it does to [has_code]. *)
Lemma Slide_scan_keeps (w : World) (self self' : Slide) (e : Element) :
  Slide_scan w self e = Ok self' →
  elements self' = elements self
  ∧ has_effect self' = has_effect self
  ∧ effect self' = effect self
  ∧ fg_color self' = fg_color self
  ∧ bg_color self' = bg_color self
  ∧ has_code self' = has_code self || is_code e.
Proof.
  unfold Slide_scan.
  destruct e; simpl e_type; simpl e_style;
    repeat (rewrite decide_False by (intros E; vm_compute in E; discriminate E));
    repeat (rewrite decide_True by reflexivity); simpl.
  1-6: intros [= <-]; simpl; rewrite ?orb_false_r, ?orb_true_r; done.
  destruct (BlockHtml_style w obj) as [st|]; simpl; [|discriminate].
  intros [= <-]. simpl. by rewrite orb_false_r.
Qed.

Lemma Slide_scan_loop (w : World) (es : list Element) :
  ∀ self scanned,
  for_each (Slide_scan w) es self = Ok scanned →
  elements scanned = elements self
  ∧ has_effect scanned = has_effect self
  ∧ effect scanned = effect self
  ∧ fg_color scanned = fg_color self
  ∧ bg_color scanned = bg_color self
  ∧ has_code scanned = has_code self || existsb is_code es.
Proof.
  induction es as [|e es IH]; intros self scanned; simpl.
  - intros [= <-]. by rewrite orb_false_r.
  - destruct (Slide_scan w self e) as [self'|] eqn:Hstep; simpl; [|discriminate].
    intros Hrest. apply IH in Hrest as (-> & -> & -> & -> & -> & ->).
    apply Slide_scan_keeps in Hstep as (-> & -> & -> & -> & -> & ->).
    by rewrite orb_assoc.
Qed.

Lemma existsb_is_code (es : list Element) :
  existsb is_code es = true ↔ ∃ obj, BlockCode obj ∈ es.
Proof.
  rewrite existsb_exists. split.
  - intros (e & Hin & He). destruct e; try discriminate.
    exists obj. by apply list_elem_of_In.
  - intros (obj & Hin). exists (BlockCode obj). split; [|done].
    by apply list_elem_of_In.
Qed.

(** The outcome of [Slide.__init__] once the element loop has run, under
    a valid style directive. *)
Lemma Slide_init_cases (w : World) (es : list Element) (scanned : Slide) :
  for_each (Slide_scan w) es (Slide_fresh es) = Ok scanned →
  valid_style w (style scanned) →
  match style scanned !! py "effect" with
  | Some e =>
      if bool_decide (style scanned !! py "fg" ≠ None)
         || bool_decide (style scanned !! py "bg" ≠ None)
      then Slide_init w es = Raise (ValueError EffectsAndColors)
      else if existsb is_code es
      then Slide_init w es = Raise (ValueError EffectsAndCode)
      else ∃ s, Slide_init w es = Ok s
                ∧ has_effect s = true ∧ effect s = Some e
                ∧ style s = style scanned
                ∧ fg_color s = 7 ∧ bg_color s = 0
  | None =>
      ∃ s fg bg, Slide_init w es = Ok s
                 ∧ has_effect s = false ∧ effect s = None
                 ∧ style s = style scanned
                 ∧ fg_color s = fg ∧ bg_color s = bg
                 ∧ match style scanned !! py "fg" with
                   | Some c => COLORMAP w !! c = Some fg
                   | None => fg = 0
                   end
                 ∧ match style scanned !! py "bg" with
                   | Some c => COLORMAP w !! c = Some bg
                   | None => bg = 7
                   end
  end.
Proof.
  intros Hscan (Heff & Hfg & Hbg).
  pose proof (Slide_scan_loop w es _ _ Hscan) as (_ & He & Heo & Hf & Hb & Hc).
  simpl in He, Heo, Hf, Hb, Hc.
  unfold Slide_init. rewrite Hscan. simpl.
  destruct scanned as [els hs he hi hc hco st eff fg bg]. simpl in *. subst.
  destruct (st !! py "effect") as [e|] eqn:Ee; simpl.
  - rewrite decide_True by by apply Heff. simpl.
    destruct (st !! py "fg") as [c|] eqn:Ef; simpl.
    + destruct (Hfg c eq_refl) as [n ->]. simpl.
      destruct (st !! py "bg") as [c'|] eqn:Eb; simpl.
      * destruct (Hbg c' eq_refl) as [n' ->]. simpl. by rewrite Ef.
      * by rewrite Ef.
    + destruct (st !! py "bg") as [c'|] eqn:Eb; simpl.
      * destruct (Hbg c' eq_refl) as [n' ->]. simpl. by rewrite Ef, Eb.
      * rewrite Ef, Eb. simpl.
        destruct (existsb is_code es); simpl; [done|]. eauto 10.
  - destruct (st !! py "fg") as [c|] eqn:Ef; simpl.
    + destruct (Hfg c eq_refl) as [n Hn]. rewrite Hn. simpl.
      destruct (st !! py "bg") as [c'|] eqn:Eb; simpl.
      * destruct (Hbg c' eq_refl) as [n' Hn']. rewrite Hn'. simpl.
        eexists _, n, n'. repeat split; done.
      * eexists _, n, 7. repeat split; done.
    + destruct (st !! py "bg") as [c'|] eqn:Eb; simpl.
      * destruct (Hbg c' eq_refl) as [n' Hn']. rewrite Hn'. simpl.
        eexists _, 0, n'. repeat split; done.
      * eexists _, 0, 7. repeat split; done.
Qed.

Lemma Slide_scan_style (w : World) (e : Element) (self : Slide) :
  match e with
  | BlockHtml obj =>
      match BlockHtml_style w obj with
      | Ok st => ∃ self', Slide_scan w self e = Ok self' ∧ style self' = st
      | Raise x => Slide_scan w self e = Raise x
      end
  | _ => ∃ self', Slide_scan w self e = Ok self' ∧ style self' = style self
  end.
Proof.
  unfold Slide_scan.
  destruct e; simpl e_type; simpl e_style;
    repeat (rewrite decide_False by (intros E; vm_compute in E; discriminate E));
    repeat (rewrite decide_True by reflexivity); simpl; eauto.
  destruct (BlockHtml_style w obj); simpl; eauto.
Qed.

(** The element loop succeeds exactly when the directive can be read, and
    leaves it in [style]. *)
Lemma Slide_scan_directive (w : World) (es : list Element) :
  ∀ self,
  match for_each (λ st e, match e with
                          | BlockHtml obj => BlockHtml_style w obj
                          | _ => Ok st
                          end) es (style self) with
  | Ok st => ∃ scanned, for_each (Slide_scan w) es self = Ok scanned
                        ∧ style scanned = st
  | Raise x => for_each (Slide_scan w) es self = Raise x
  end.
Proof.
  induction es as [|e es IH]; intros self; simpl; [eauto|].
  pose proof (Slide_scan_style w e self) as He.
  destruct e; try (destruct He as (self' & -> & <-); simpl; apply IH).
  destruct (BlockHtml_style w obj) as [st|x]; simpl.
  - destruct He as (self' & -> & <-). simpl. apply IH.
  - by rewrite He.
Qed.

Lemma directive_scanned (w : World) (es : list Element) (st : gmap str str) :
  directive w es = Ok st →
  ∃ scanned, for_each (Slide_scan w) es (Slide_fresh es) = Ok scanned
             ∧ style scanned = st.
Proof.
  intros H. pose proof (Slide_scan_directive w es (Slide_fresh es)) as Hs.
  simpl in Hs. unfold directive in H. by rewrite H in Hs.
Qed.

(** C8: with a valid style directive, construction fails with
    IncompatibleStyle exactly when an effect is named and either a
    foreground or background colour is named too or the slide holds a code
    block; in every other case the slide is constructed. *)
Theorem Slide_init_incompatible_style (w : World) (es : list Element)
  (st : gmap str str) :
  directive w es = Ok st →
  valid_style w st →
  let effect_active := is_Some (st !! py "effect") in
  let color_set := is_Some (st !! py "fg") ∨ is_Some (st !! py "bg") in
  let has_code_block := ∃ obj, BlockCode obj ∈ es in
  ((∃ e, Slide_init w es = Raise e ∧ error_kind e = Some IncompatibleStyle)
   ↔ effect_active ∧ (color_set ∨ has_code_block))
  ∧ ((∃ s, Slide_init w es = Ok s)
     ↔ ¬ (effect_active ∧ (color_set ∨ has_code_block))).
Proof.
  intros Hdir Hvalid effect_active color_set has_code_block.
  destruct (directive_scanned w es st Hdir) as (scanned & Hscan & <-).
  pose proof (Slide_init_cases w es scanned Hscan Hvalid) as Hcases.
  unfold effect_active, color_set, has_code_block.
  rewrite <- existsb_is_code.
  destruct (style scanned !! py "effect") as [e|].
  - destruct (style scanned !! py "fg") as [c|]; simpl in Hcases.
    { rewrite Hcases.
      assert (Hcond : is_Some (Some e)
                      ∧ ((is_Some (Some c) ∨ is_Some (style scanned !! py "bg"))
                         ∨ existsb is_code es = true)).
      { split; [by eexists|]. left. left. by eexists. }
      split; split.
      - intros _. exact Hcond.
      - intros _. eexists. split; reflexivity.
      - intros [s Hs]. discriminate Hs.
      - intros Hn. destruct (Hn Hcond). }
    destruct (style scanned !! py "bg") as [c|]; simpl in Hcases.
    { rewrite Hcases.
      assert (Hcond : is_Some (Some e)
                      ∧ ((is_Some (@None str) ∨ is_Some (Some c))
                         ∨ existsb is_code es = true)).
      { split; [by eexists|]. left. right. by eexists. }
      split; split.
      - intros _. exact Hcond.
      - intros _. eexists. split; reflexivity.
      - intros [s Hs]. discriminate Hs.
      - intros Hn. destruct (Hn Hcond). }
    destruct (existsb is_code es).
    { rewrite Hcases.
      assert (Hcond : is_Some (Some e)
                      ∧ ((is_Some (@None str) ∨ is_Some (@None str))
                         ∨ true = true)).
      { split; [by eexists|]. by right. }
      split; split.
      - intros _. exact Hcond.
      - intros _. eexists. split; reflexivity.
      - intros [s Hs]. discriminate Hs.
      - intros Hn. destruct (Hn Hcond). }
    destruct Hcases as (s & -> & _). split; split.
    + intros (x & Hx & _). discriminate Hx.
    + intros (_ & [[[? [=]]|[? [=]]]|[=]]).
    + intros _ (_ & [[[? [=]]|[? [=]]]|[=]]).
    + eauto.
  - destruct Hcases as (s & fg & bg & -> & _). split; split.
    + intros (x & Hx & _). discriminate Hx.
    + intros ([? [=]] & _).
    + intros _ ([? [=]] & _).
    + eauto.
Qed.

(** A slide whose directive names an effect and a foreground colour. *)
Lemma Slide_init_incompatible_style_witness :
  ∃ e, Slide_init sample_world [BlockHtml (html_node "effect=matrix fg=red")]
       = Raise e
       ∧ error_kind e = Some IncompatibleStyle.
Proof.
  apply (Slide_init_incompatible_style sample_world
           [BlockHtml (html_node "effect=matrix fg=red")]
           (<[py "fg" := py "red"]> (<[py "effect" := py "matrix"]> ∅))).
  - reflexivity.
  - repeat split; intros x Hx; vm_compute in Hx; try discriminate Hx;
      injection Hx as <-.
    + apply list_elem_of_In. vm_compute. auto.
    + exists 1. reflexivity.
  - split; [by eexists|]. left. left. by eexists.
Defined.





(** ** Element sizes *)

(** C2, as the code has it: the size of a raw-markup element is not
    implemented; every other element built from a fragment of its kind has
    a size, which is not negative (the terminal height being so), and
    which is the same after [render] has been called. *)
Theorem size_nonneg_except_raw_markup (w : World) (e : Element) :
  (∀ obj, size w (BlockHtml obj) = Raise NotImplementedError)
  ∧ (well_formed e →
     0 <= (terminal_size w).2 →
     (∀ obj, e ≠ BlockHtml obj) →
     ∃ n, size w e = Ok n ∧ 0 <= n ∧ size_after_render w e = Ok n).
Proof.
  split; [done|]. intros Hwf Hterm Hraw. unfold size_after_render.
  destruct e as [obj|obj|obj|obj|obj|obj|obj]; simpl in *.
  - destruct Hwf as ([level Hlevel] & child & rest & Hch & [t Ht]).
    unfold Heading_size, first_child_text. rewrite Hlevel, Hch. simpl.
    rewrite Ht. simpl.
    repeat case_decide; eexists; (split; [done|]);
      (split; [|done]); try lia. apply len_nonneg.
  - exists 1. repeat split. lia.
  - eexists. repeat split. apply len_nonneg.
  - destruct Hwf as [t Ht]. unfold BlockCode_size. rewrite Ht. simpl.
    eexists. repeat split. apply len_nonneg.
  - destruct Hwf as [script ->]. rewrite Codio_size_spec.
    eexists. repeat split. unfold spec_size.
    pose proof (len_nonneg (s_lines script)).
    pose proof (len_nonneg
                  (filter (λ l, has_input_and_output l = true) (s_lines script))).
    lia.
  - eexists. repeat split. unfold Image_size.
    apply Z.quot_pos; lia.
  - by destruct (Hraw obj).
Qed.

(** An image on the 80x24 terminal. *)
Lemma size_nonneg_except_raw_markup_witness :
  ∃ n, size sample_world (Image (image_node "demo.yml" "logo")) = Ok n
       ∧ 0 <= n
       ∧ size_after_render sample_world (Image (image_node "demo.yml" "logo"))
         = Ok n.
Proof.
  apply (size_nonneg_except_raw_markup sample_world
           (Image (image_node "demo.yml" "logo"))).
  - by eexists.
  - vm_compute. discriminate.
  - discriminate.
Defined.

(** C2 as stated fails on raw markup: [size] raises. *)
Lemma BlockHtml_size_raises :
  size sample_world (BlockHtml (html_node "<!-- effect=matrix -->"))
  = Raise NotImplementedError.
Proof. reflexivity. Qed.

(** ** Markdown.parse *)

Lemma bind_Ok {A B} (m : result A) (f : A → result B) (b : B) :
  m ≫= f = Ok b → ∃ a, m = Ok a ∧ f a = Ok b.
Proof. destruct m as [a|]; simpl; [eauto|discriminate]. Qed.

Lemma for_each_app {S A} (body : S → A → result S) (xs ys : list A) (s : S) :
  for_each body (xs ++ ys) s = for_each body xs s ≫= for_each body ys.
Proof.
  revert s. induction xs as [|x xs IH]; intros s; simpl; [done|].
  destruct (body s x); simpl; [apply IH|done].
Qed.

Lemma parse_loop_app (w : World) (n : Z) (xs ys : list AstNode) :
  ∀ i st,
  parse_loop w n i (xs ++ ys) st
  = parse_loop w n i xs st ≫= parse_loop w n (i + len xs) ys.
Proof.
  induction xs as [|x xs IH]; intros i st; simpl.
  - f_equal. unfold len. simpl. lia.
  - destruct (parse_step w n i st x) as [st'|]; simpl; [|done].
    rewrite IH. f_equal. unfold len. simpl length. f_equal. lia.
Qed.

(** Dispatching one node leaves the slides and their count alone. *)
Lemma dispatch_keeps (w : World) (st st' : ParseState) (obj : AstNode) :
  dispatch w st obj = Ok st' →
  slides st' = slides st ∧ sliden st' = sliden st.
Proof.
  unfold dispatch. destruct (eval_name _ _ _); try discriminate.
  destruct (construct w k obj); simpl; [|discriminate].
  by intros [= <-].
Qed.

Lemma paragraph_child_keeps (w : World) (st st' : ParseState) (child : AstNode) :
  paragraph_child w st child = Ok st' →
  slides st' = slides st ∧ sliden st' = sliden st.
Proof.
  unfold paragraph_child. intros H.
  apply bind_Ok in H as ([] & _ & H).
  - apply bind_Ok in H as (src & _ & H).
    apply bind_Ok in H as (codio & _ & H). by injection H as <-.
  - by apply dispatch_keeps in H.
Qed.

Lemma paragraph_children_keep (w : World) (children : list AstNode) :
  ∀ st st', for_each (paragraph_child w) children st = Ok st' →
            slides st' = slides st ∧ sliden st' = sliden st.
Proof.
  induction children as [|c cs IH]; intros st st'; simpl.
  - by intros [= <-].
  - intros H. apply bind_Ok in H as (st1 & H1 & H).
    apply IH in H as [-> ->]. by apply paragraph_child_keeps in H1.
Qed.

Lemma flush_counts (w : World) (st st' : ParseState) :
  flush w st = Ok st' →
  sliden st = len (slides st) → sliden st' = len (slides st').
Proof.
  unfold flush. intros H. apply bind_Ok in H as (slide & _ & H).
  injection H as <-. simpl. rewrite len_app. unfold len at 3. simpl. lia.
Qed.

(** [sliden] is the number of slides flushed so far. *)
Lemma parse_step_counts (w : World) (n i : Z) (st st' : ParseState)
  (obj : AstNode) :
  parse_step w n i st obj = Ok st' →
  sliden st = len (slides st) → sliden st' = len (slides st').
Proof.
  unfold parse_step. intros Hstep Hinv.
  destruct (decide (n_type obj = py "newline")); [by injection Hstep as <-|].
  destruct (decide (n_type obj = py "thematic_break" ∧ buffer st ≠ [])).
  { apply bind_Ok in Hstep as (st1 & Hflush & Hstep).
    injection Hstep as <-. simpl. by apply (flush_counts w st). }
  apply bind_Ok in Hstep as (st1 & Hbody & Hstep).
  assert (Hkeep : slides st1 = slides st ∧ sliden st1 = sliden st).
  { destruct (decide (n_type obj = py "paragraph")).
    - apply bind_Ok in Hbody as (children & _ & Hbody).
      by apply paragraph_children_keep in Hbody.
    - by apply dispatch_keeps in Hbody. }
  destruct Hkeep as [Hs Hn].
  destruct (decide (i = n - 1)).
  - apply (flush_counts w st1); [done|]. by rewrite Hs, Hn.
  - injection Hstep as <-. by rewrite Hs, Hn.
Qed.

Lemma parse_loop_counts (w : World) (n : Z) (ast : list AstNode) :
  ∀ i st st', parse_loop w n i ast st = Ok st' →
              sliden st = len (slides st) → sliden st' = len (slides st').
Proof.
  induction ast as [|obj ast IH]; intros i st st'; simpl.
  - by intros [= <-].
  - intros H Hinv. apply bind_Ok in H as (st1 & H1 & H).
    apply (IH _ _ _ H). by apply (parse_step_counts w n i st st1 obj).
Qed.

Lemma eval_name_unbound (w : World) (local : option Resolved) (name : str) :
  unbound w name → eval_name w local name = Unresolved.
Proof.
  intros (Hne & Hmod & Hout). unfold eval_name.
  rewrite decide_False by done. by rewrite Hmod.
Qed.

Lemma dispatch_unbound (w : World) (st : ParseState) (obj : AstNode) :
  unbound w (element_name_of obj) →
  dispatch w st obj
  = Raise (ValueError (NotSupportedElement (sliden st + 1)
                                           (element_name_of obj))).
Proof. intros H. unfold dispatch. by rewrite eval_name_unbound. Qed.

Lemma paragraph_child_unbound (w : World) (st : ParseState) (child : AstNode) :
  n_type child ≠ py "image" →
  unbound w (element_name_of child) →
  paragraph_child w st child
  = Raise (ValueError (NotSupportedElement (sliden st + 1)
                                           (element_name_of child))).
Proof.
  intros Himage Hname. unfold paragraph_child.
  rewrite decide_False by done. simpl. by apply dispatch_unbound.
Qed.

(** C3, as the code has it: a node whose title-cased tag is a name that
    nothing binds makes [parse] fail with the "is not supported"
    [ValueError], naming that name and the number of slides flushed so far
    plus one; this holds for a top-level node that is no newline, thematic
    break or paragraph, and for a paragraph child that is no image.  Which
    tags are supported is decided by name resolution alone. *)
Theorem parse_unbound_name_not_supported (w : World) :
  (∀ before obj after st,
     parse_loop w (len (before ++ obj :: after)) 0 before parse_start = Ok st →
     n_type obj ∉ [py "newline"; py "thematic_break"; py "paragraph"] →
     unbound w (element_name_of obj) →
     sliden st = len (slides st)
     ∧ parse_ast w (before ++ obj :: after)
       = Raise (ValueError (NotSupportedElement (len (slides st) + 1)
                                                (element_name_of obj))))
  ∧ (∀ before par after cbefore child cafter st st',
       parse_loop w (len (before ++ par :: after)) 0 before parse_start
       = Ok st →
       n_type par = py "paragraph" →
       n_children par = Some (cbefore ++ child :: cafter) →
       for_each (paragraph_child w) cbefore st = Ok st' →
       n_type child ≠ py "image" →
       unbound w (element_name_of child) →
       sliden st = len (slides st)
       ∧ parse_ast w (before ++ par :: after)
         = Raise (ValueError (NotSupportedElement (len (slides st) + 1)
                                                  (element_name_of child)))).
Proof.
  split.
  - intros before obj after st Hbefore Htag Hname.
    assert (Hinv : sliden st = len (slides st)).
    { by apply (parse_loop_counts w _ before 0 parse_start st Hbefore). }
    split; [done|].
    rewrite !not_elem_of_cons in Htag. destruct Htag as (Hnl & Htb & Hpar & _).
    unfold parse_ast. rewrite parse_loop_app, Hbefore. simpl.
    unfold parse_step.
    rewrite decide_False by done.
    rewrite decide_False by (by intros [? _]).
    rewrite decide_False by done.
    rewrite dispatch_unbound by done. simpl. by rewrite Hinv.
  - intros before par after cbefore child cafter st st'
           Hbefore Hpar Hchildren Hcbefore Himage Hname.
    assert (Hinv : sliden st = len (slides st)).
    { by apply (parse_loop_counts w _ before 0 parse_start st Hbefore). }
    split; [done|].
    apply paragraph_children_keep in Hcbefore as Hkeep.
    destruct Hkeep as [Hs Hn].
    unfold parse_ast. rewrite parse_loop_app, Hbefore. simpl.
    unfold parse_step. rewrite Hpar.
    rewrite decide_False by (intros E; vm_compute in E; discriminate E).
    rewrite decide_False
      by (intros [E _]; vm_compute in E; discriminate E).
    rewrite decide_True by done.
    rewrite Hchildren. simpl. rewrite for_each_app, Hcbefore. simpl.
    rewrite paragraph_child_unbound by done. simpl. by rewrite Hn, Hinv.
Qed.

(** A block quote after one flushed slide is reported for slide 2. *)
Lemma parse_unbound_name_not_supported_witness :
  parse_ast sample_world
    [heading_node 2 "A"; thematic_break_node; node "block_quote"]
  = Raise (ValueError (NotSupportedElement 2 (py "BlockQuote"))).
Proof.
  edestruct (proj1 (parse_unbound_name_not_supported sample_world)
               [heading_node 2 "A"; thematic_break_node]
               (node "block_quote") []) as [_ Hparse].
  - vm_compute. reflexivity.
  - rewrite !not_elem_of_cons. repeat split; try discriminate.
    apply not_elem_of_nil.
  - repeat split. discriminate.
  - exact Hparse.
Defined.

(** C3 as stated fails: the tag "codio" is none of the listed ones, yet
    the node becomes a Codio element of a slide; and the tag "slide" ends
    in a [TypeError]. *)
Lemma parse_resolves_other_names :
  (py "codio" ∉ supported_tags)
  ∧ (py "slide" ∉ supported_tags)
  ∧ parse_ast sample_world [node "codio"]
    = Ok [ {| elements := [Codio (FromNode (node "codio"))];
              has_style := false; has_effect := false; has_image := false;
              has_code := false; has_codio := true;
              style := ∅; effect := None; fg_color := 0; bg_color := 7 |} ]
  ∧ parse_ast sample_world [node "slide"] = Raise TypeError.
Proof.
  repeat split.
  - unfold supported_tags. rewrite !not_elem_of_cons.
    repeat split; try discriminate. apply not_elem_of_nil.
  - unfold supported_tags. rewrite !not_elem_of_cons.
    repeat split; try discriminate. apply not_elem_of_nil.
Qed.

(** A thematic break met with a non-empty buffer turns the buffer into a
    slide and starts an empty one. *)
Lemma parse_step_thematic_break (w : World) (n i : Z) (st : ParseState)
  (obj : AstNode) :
  n_type obj = py "thematic_break" →
  buffer st ≠ [] →
  parse_step w n i st obj
  = (slide ← Slide_init w (buffer st);
     Ok (mkState (slides st ++ [slide]) (sliden st + 1) []
                 (Element_local st))).
Proof.
  intros Htype Hbuffer. unfold parse_step. rewrite Htype.
  rewrite decide_False by (intros E; vm_compute in E; discriminate E).
  rewrite decide_True by done.
  unfold flush. by destruct (Slide_init w (buffer st)).
Qed.

(** A newline node is skipped before the end-of-document test is reached:
    when it is the last node, the slides are those flushed before it. *)
Lemma parse_trailing_newline (w : World) (ast : list AstNode) (nl : AstNode)
  (st : ParseState) :
  n_type nl = py "newline" →
  parse_loop w (len (ast ++ [nl])) 0 ast parse_start = Ok st →
  parse_ast w (ast ++ [nl]) = Ok (slides st).
Proof.
  intros Htype Hast. unfold parse_ast.
  rewrite parse_loop_app, Hast. simpl. unfold parse_step.
  by rewrite decide_True by done.
Qed.

(** Any other last node reaches the end-of-document test, and the buffer
    it leaves becomes the trailing slide. *)
Lemma parse_last_node_flushes (w : World) (ast : list AstNode) (obj : AstNode)
  (st st1 : ParseState) :
  parse_loop w (len (ast ++ [obj])) 0 ast parse_start = Ok st →
  n_type obj ∉ [py "newline"; py "thematic_break"; py "paragraph"] →
  dispatch w st obj = Ok st1 →
  parse_ast w (ast ++ [obj])
  = (slide ← Slide_init w (buffer st1); Ok (slides st1 ++ [slide])).
Proof.
  intros Hast Htag Hobj.
  rewrite !not_elem_of_cons in Htag. destruct Htag as (Hnl & Htb & Hpar & _).
  unfold parse_ast. rewrite parse_loop_app, Hast. simpl.
  unfold parse_step.
  rewrite decide_False by done.
  rewrite decide_False by (by intros [? _]).
  rewrite decide_False by done.
  rewrite Hobj. simpl.
  rewrite decide_True by (rewrite len_app; unfold len; simpl; lia).
  unfold flush. by destruct (Slide_init w (buffer st1)).
Qed.

(** A thematic break met with an empty buffer is dispatched by name like
    any other node. *)
Lemma parse_leading_thematic_break :
  parse_ast sample_world [thematic_break_node; heading_node 2 "A"]
  = Raise (ValueError (NotSupportedElement 1 (py "ThematicBreak"))).
Proof. reflexivity. Qed.

(** C1 on concrete documents: content before each of two thematic breaks
    and trailing content give three slides; the same document followed by
    a newline node gives two, the trailing buffer being dropped; a heading
    followed by a newline node gives no slide at all, where the heading
    alone gives one. *)
Theorem parse_trailing_newline_drops_final_slide :
  (∃ s1 s2 s3,
     parse_ast sample_world
       [heading_node 2 "A"; thematic_break_node;
        heading_node 2 "B"; thematic_break_node; heading_node 2 "C"]
     = Ok [s1; s2; s3])
  ∧ (∃ s1 s2,
       parse_ast sample_world
         [heading_node 2 "A"; thematic_break_node;
          heading_node 2 "B"; thematic_break_node; heading_node 2 "C";
          newline_node]
       = Ok [s1; s2])
  ∧ (∃ s1, parse_ast sample_world [heading_node 2 "A"] = Ok [s1])
  ∧ parse_ast sample_world [heading_node 2 "A"; newline_node] = Ok [].
Proof.
  repeat split.
  - do 3 eexists. vm_compute. reflexivity.
  - do 2 eexists. vm_compute. reflexivity.
  - eexists. vm_compute. reflexivity.
Qed.
